(** * BidirectionalMap (src/data_structures/bidirectional_map.ts)

    A shallow embedding of the [BidirectionalMap<K, V>] class, which extends
    the built-in [Map<K, V>] with a private [#reverseMap : Map<V, K>], and
    the properties of it that the specification states.

    The type parameters [K] and [V] are unconstrained in the source, so keys
    and values range over JavaScript values, [undefined] included.  The
    built-in [Map] is modelled as a finite map; its iteration order is not
    modelled, as the class exposes it only through the inherited iterators. *)

From stdpp Require Import gmap strings list fin_maps.

(** ** JavaScript values *)

(** The primitive values a caller can store.  Numbers are the integral ones,
    on which [===] and the [Map]'s key comparison (SameValueZero) are plain
    equality. *)
Inductive JsValue : Type :=
  | JsUndefined
  | JsNull
  | JsBoolean (b : bool)
  | JsNumber (n : Z)
  | JsString (s : string).

#[global] Instance JsValue_eq_dec : EqDecision JsValue.
Proof. solve_decision. Defined.

Definition JsValue_to_sum (x : JsValue) : unit + unit + bool + Z + string :=
  match x with
  | JsUndefined => inl (inl (inl (inl ())))
  | JsNull => inl (inl (inl (inr ())))
  | JsBoolean b => inl (inl (inr b))
  | JsNumber n => inl (inr n)
  | JsString s => inr s
  end.

Definition JsValue_of_sum (y : unit + unit + bool + Z + string) : JsValue :=
  match y with
  | inl (inl (inl (inl _))) => JsUndefined
  | inl (inl (inl (inr _))) => JsNull
  | inl (inl (inr b)) => JsBoolean b
  | inl (inr n) => JsNumber n
  | inr s => JsString s
  end.

#[global] Instance JsValue_countable : Countable JsValue.
Proof.
  apply (inj_countable' JsValue_to_sum JsValue_of_sum).
  by intros [].
Defined.

(** [a === b] and [a !== b] on primitive values. *)
Definition strict_equals (a b : JsValue) : bool := bool_decide (a = b).
Definition strict_not_equals (a b : JsValue) : bool := negb (strict_equals a b).

(** ** The built-in [Map] *)

Module JsMap.

(** [Map.prototype.get]: the stored value, or [undefined] when the key has
    no entry. *)
Definition get (m : gmap JsValue JsValue) (key : JsValue) : JsValue :=
  default JsUndefined (m !! key).

(** [Map.prototype.has]. *)
Definition has (m : gmap JsValue JsValue) (key : JsValue) : bool :=
  bool_decide (is_Some (m !! key)).

(** [Map.prototype.set]. *)
Definition set (m : gmap JsValue JsValue) (key value : JsValue)
  : gmap JsValue JsValue :=
  <[key := value]> m.

(** [Map.prototype.delete]: whether an entry was there, and the map
    without it. *)
Definition delete (m : gmap JsValue JsValue) (key : JsValue)
  : bool * gmap JsValue JsValue :=
  (has m key, base.delete key m).

(** [Map.prototype.clear]. *)
Definition clear (m : gmap JsValue JsValue) : gmap JsValue JsValue := ∅.

(** [Map.prototype.size]. *)
Definition size (m : gmap JsValue JsValue) : nat := base.size m.

End JsMap.

(** ** The class *)

Module BidirectionalMap.

(** An instance: the inherited [Map] storage (the forward mapping) and the
    private [#reverseMap]. *)
Record t : Type := mk {
  super : gmap JsValue JsValue;
  reverseMap : gmap JsValue JsValue
}.

(** The state after [super()] and [this.#reverseMap = new Map()]. *)
Definition empty : t := {| super := ∅; reverseMap := ∅ |}.

(** [clear()]. *)
Definition clear (this : t) : t :=
  {| super := JsMap.clear (super this);
     reverseMap := JsMap.clear (reverseMap this) |}.

(** [set(key, value)]; the result is [this] after the call. *)
Definition set (key value : JsValue) (this : t) : t :=
  (* const oldValue = super.get(key); *)
  let oldValue := JsMap.get (super this) key in
  (* if (oldValue !== undefined) this.#reverseMap.delete(oldValue); *)
  let reverseMap1 :=
    if strict_not_equals oldValue JsUndefined
    then (JsMap.delete (reverseMap this) oldValue).2
    else reverseMap this in
  (* const oldKey = this.#reverseMap.get(value); *)
  let oldKey := JsMap.get reverseMap1 value in
  (* if (oldKey !== undefined) super.delete(oldKey); *)
  let super1 :=
    if strict_not_equals oldKey JsUndefined
    then (JsMap.delete (super this) oldKey).2
    else super this in
  (* super.set(key, value); this.#reverseMap.set(value, key); *)
  {| super := JsMap.set super1 key value;
     reverseMap := JsMap.set reverseMap1 value key |}.

(** The inherited [get(key)], [has(key)] and [size]. *)
Definition get (this : t) (key : JsValue) : JsValue :=
  JsMap.get (super this) key.

Definition has (this : t) (key : JsValue) : bool :=
  JsMap.has (super this) key.

Definition size (this : t) : nat := JsMap.size (super this).

(** [getReverse(value)]. *)
Definition getReverse (this : t) (value : JsValue) : JsValue :=
  JsMap.get (reverseMap this) value.

(** [delete(key)]: the returned boolean and [this] after the call. *)
Definition delete (key : JsValue) (this : t) : bool * t :=
  (* const value = super.get(key); *)
  let value := JsMap.get (super this) key in
  (* if (value === undefined) return false; *)
  if strict_equals value JsUndefined then (false, this)
  else
    (* this.#reverseMap.delete(value); return super.delete(key); *)
    let reverseMap1 := (JsMap.delete (reverseMap this) value).2 in
    let r := JsMap.delete (super this) key in
    (r.1, {| super := r.2; reverseMap := reverseMap1 |}).

(** [deleteReverse(value)]. *)
Definition deleteReverse (value : JsValue) (this : t) : bool * t :=
  (* const key = this.#reverseMap.get(value); *)
  let key := JsMap.get (reverseMap this) value in
  (* if (key === undefined) return false; *)
  if strict_equals key JsUndefined then (false, this)
  else
    (* super.delete(key); return this.#reverseMap.delete(value); *)
    let super1 := (JsMap.delete (super this) key).2 in
    let r := JsMap.delete (reverseMap this) value in
    (r.1, {| super := super1; reverseMap := r.2 |}).

(** [hasReverse(value)]. *)
Definition hasReverse (this : t) (value : JsValue) : bool :=
  JsMap.has (reverseMap this) value.

(** The body of [for (const [key, value] of iterable) this.set(key, value)]. *)
Fixpoint for_of_set (iterable : list (JsValue * JsValue)) (this : t) : t :=
  match iterable with
  | [] => this
  | (key, value) :: rest => for_of_set rest (set key value this)
  end.

(** [new BidirectionalMap(iterable)]; [None] is an omitted, [undefined] or
    [null] argument. *)
Definition constructor (iterable : option (list (JsValue * JsValue))) : t :=
  match iterable with
  | Some pairs => for_of_set pairs empty
  | None => empty
  end.

End BidirectionalMap.

Import BidirectionalMap.

(** ** Sequences of public operations *)

(** The mutating calls a caller can make on an instance. *)
Inductive Op : Type :=
  | OpSet (key value : JsValue)
  | OpDelete (key : JsValue)
  | OpDeleteReverse (value : JsValue)
  | OpClear.

(** One call, keeping the instance and dropping the returned value. *)
Definition step (this : t) (op : Op) : t :=
  match op with
  | OpSet key value => set key value this
  | OpDelete key => (delete key this).2
  | OpDeleteReverse value => (deleteReverse value this).2
  | OpClear => clear this
  end.

(** The calls of [ops] in order. *)
Definition run (ops : list Op) (this : t) : t := foldl step this ops.

(** The specification's account of construction from a sequence of pairs:
    start from the empty container and call [set] for each pair in order. *)
Definition construct_by_sets (pairs : list (JsValue * JsValue)) : t :=
  run (map (λ kv, OpSet kv.1 kv.2) pairs) (constructor None).

(** The call stores no [undefined]: the key and the value of a [set] are
    both defined.  The other calls store nothing. *)
Definition op_defined (op : Op) : bool :=
  match op with
  | OpSet key value =>
      strict_not_equals key JsUndefined && strict_not_equals value JsUndefined
  | OpDelete _ | OpDeleteReverse _ | OpClear => true
  end.

(** Every pair handed to the constructor has a defined key and value. *)
Definition pairs_defined (pairs : list (JsValue * JsValue)) : bool :=
  forallb (λ kv, op_defined (OpSet kv.1 kv.2)) pairs.

(** The [set] calls of a sequence. *)
Definition is_set (op : Op) : bool :=
  match op with
  | OpSet _ _ => true
  | OpDelete _ | OpDeleteReverse _ | OpClear => false
  end.

Definition count_sets (ops : list Op) : nat :=
  length (List.filter is_set ops).

(** ** Invariants of the specification *)

(** I1, as the specification words it. *)
Definition I1 (bm : t) : Prop :=
  (∀ k v, super bm !! k = Some v → get bm k = v ∧ getReverse bm v = k) ∧
  (∀ v k, reverseMap bm !! v = Some k → super bm !! k = Some v).

(** I3: both mappings have as many entries as [size] reports. *)
Definition I3 (bm : t) : Prop :=
  base.size (super bm) = base.size (reverseMap bm) ∧
  base.size (reverseMap bm) = size bm.

(** The two mappings are inverses of each other. *)
Definition inverse_maps (bm : t) : Prop :=
  ∀ k v, super bm !! k = Some v ↔ reverseMap bm !! v = Some k.

(** No stored key or value is [undefined]. *)
Definition defined_entries (bm : t) : Prop :=
  ∀ k v, super bm !! k = Some v → k ≠ JsUndefined ∧ v ≠ JsUndefined.

Definition wf (bm : t) : Prop := inverse_maps bm ∧ defined_entries bm.

(** ** Proof support *)

(** The methods unfolded down to operations on the two finite maps. *)
Ltac unfold_bm :=
  unfold step, set, delete, deleteReverse, clear, get, getReverse, has,
    hasReverse, size, empty, JsMap.get, JsMap.set, JsMap.delete, JsMap.has,
    JsMap.clear, JsMap.size, strict_not_equals, strict_equals in *;
  simpl in *.

Lemma strict_not_equals_true (a b : JsValue) :
  a ≠ b → strict_not_equals a b = true.
Proof.
  intros Hab. unfold strict_not_equals, strict_equals.
  by rewrite bool_decide_eq_false_2.
Qed.

Lemma strict_equals_false (a b : JsValue) :
  a ≠ b → strict_equals a b = false.
Proof. intros Hab. unfold strict_equals. by rewrite bool_decide_eq_false_2. Qed.

Lemma strict_not_equals_inv (a b : JsValue) :
  strict_not_equals a b = true → a ≠ b.
Proof.
  unfold strict_not_equals, strict_equals. intros Hab.
  by apply negb_true_iff, bool_decide_eq_false in Hab.
Qed.

Lemma strict_equals_refl (a : JsValue) : strict_equals a a = true.
Proof. unfold strict_equals. by rewrite bool_decide_eq_true_2. Qed.

Lemma strict_not_equals_refl (a : JsValue) : strict_not_equals a a = false.
Proof. unfold strict_not_equals. by rewrite strict_equals_refl. Qed.

(** Reduction of the record projections and of the pairs the methods
    return, leaving the finite maps alone. *)
Ltac bm_cbn := cbn [super reverseMap fst snd default negb].

Lemma wf_empty : wf empty.
Proof.
  split; intros k v; unfold_bm; rewrite !lookup_empty; naive_solver.
Qed.

(** Case analysis on the lookups of a goal about both mappings, once the
    inverse property has been instantiated at the entries in play. *)
Ltac split_lookups :=
  rewrite ?lookup_insert, ?lookup_delete, ?lookup_empty;
  repeat case_decide; subst; intuition congruence.

Lemma set_preserves_wf (k v : JsValue) (bm : t) :
  k ≠ JsUndefined → v ≠ JsUndefined → wf bm → wf (set k v bm).
Proof.
  intros Hk Hv [Hinv Hdef]. destruct bm as [fwd rev].
  unfold wf, inverse_maps, defined_entries in *. unfold_bm.
  destruct (fwd !! k) as [w|] eqn:Hfk; simpl.
  - destruct (Hdef _ _ Hfk) as [_ Hw].
    rewrite (bool_decide_eq_false_2 (w = JsUndefined)) by done. simpl.
    pose proof (proj1 (Hinv _ _) Hfk) as Hrw.
    destruct (base.delete w rev !! v) as [k'|] eqn:Hrv; simpl.
    + apply lookup_delete_Some in Hrv as [Hwv Hrv].
      pose proof (proj2 (Hinv _ _) Hrv) as Hfk'.
      destruct (Hdef _ _ Hfk') as [Hk' _].
      rewrite (bool_decide_eq_false_2 (k' = JsUndefined)) by done. simpl.
      split; intros a b.
      * pose proof (Hinv a b); pose proof (Hinv k b); pose proof (Hinv k' b);
          pose proof (Hinv a v); pose proof (Hinv a w).
        clear Hinv Hdef. split_lookups.
      * pose proof (Hdef a b). clear Hinv Hdef. split_lookups.
    + simpl.
      apply lookup_delete_None in Hrv.
      split; intros a b.
      * pose proof (Hinv a b); pose proof (Hinv k b);
          pose proof (Hinv a v); pose proof (Hinv a w).
        clear Hinv Hdef. split_lookups.
      * pose proof (Hdef a b). clear Hinv Hdef. split_lookups.
  - simpl.
    destruct (rev !! v) as [k'|] eqn:Hrv; simpl.
    + pose proof (proj2 (Hinv _ _) Hrv) as Hfk'.
      destruct (Hdef _ _ Hfk') as [Hk' _].
      rewrite (bool_decide_eq_false_2 (k' = JsUndefined)) by done. simpl.
      split; intros a b.
      * pose proof (Hinv a b); pose proof (Hinv k b); pose proof (Hinv k' b);
          pose proof (Hinv a v).
        clear Hinv Hdef. split_lookups.
      * pose proof (Hdef a b). clear Hinv Hdef. split_lookups.
    + simpl.
      split; intros a b.
      * pose proof (Hinv a b); pose proof (Hinv k b); pose proof (Hinv a v).
        clear Hinv Hdef. split_lookups.
      * pose proof (Hdef a b). clear Hinv Hdef. split_lookups.
Qed.

Lemma delete_preserves_wf (k : JsValue) (bm : t) :
  wf bm → wf (delete k bm).2.
Proof.
  intros [Hinv Hdef]. destruct bm as [fwd rev].
  unfold wf, inverse_maps, defined_entries in *. unfold_bm.
  destruct (fwd !! k) as [w|] eqn:Hfk; simpl; [|done].
  destruct (Hdef _ _ Hfk) as [_ Hw].
  rewrite (bool_decide_eq_false_2 (w = JsUndefined)) by done. simpl.
  split; intros a b.
  - pose proof (Hinv a b); pose proof (Hinv k b); pose proof (Hinv a w);
      pose proof (Hinv k w).
    clear Hinv Hdef. split_lookups.
  - pose proof (Hdef a b). clear Hinv Hdef. split_lookups.
Qed.

Lemma deleteReverse_preserves_wf (v : JsValue) (bm : t) :
  wf bm → wf (deleteReverse v bm).2.
Proof.
  intros [Hinv Hdef]. destruct bm as [fwd rev].
  unfold wf, inverse_maps, defined_entries in *. unfold_bm.
  destruct (rev !! v) as [k|] eqn:Hrv; simpl; [|done].
  pose proof (proj2 (Hinv _ _) Hrv) as Hfk.
  destruct (Hdef _ _ Hfk) as [Hk _].
  rewrite (bool_decide_eq_false_2 (k = JsUndefined)) by done. simpl.
  split; intros a b.
  - pose proof (Hinv a b); pose proof (Hinv k b); pose proof (Hinv a v).
    clear Hinv Hdef. split_lookups.
  - pose proof (Hdef a b). clear Hinv Hdef. split_lookups.
Qed.

Lemma clear_preserves_wf (bm : t) : wf (clear bm).
Proof. exact wf_empty. Qed.

Lemma step_preserves_wf (op : Op) (bm : t) :
  op_defined op = true → wf bm → wf (step bm op).
Proof.
  destruct op as [k v|k|v|]; simpl; intros Hop Hwf.
  - apply andb_true_iff in Hop as [Hk Hv].
    apply set_preserves_wf; [| |done].
    + by apply strict_not_equals_inv.
    + by apply strict_not_equals_inv.
  - by apply delete_preserves_wf.
  - by apply deleteReverse_preserves_wf.
  - apply clear_preserves_wf.
Qed.

Lemma run_preserves_wf (ops : list Op) (bm : t) :
  forallb op_defined ops = true → wf bm → wf (run ops bm).
Proof.
  revert bm. induction ops as [|op ops IH]; intros bm Hops Hwf; [done|].
  simpl in Hops. apply andb_true_iff in Hops as [Hop Hops].
  apply (IH (step bm op)); [done|]. by apply step_preserves_wf.
Qed.

(** Maps that are inverses of each other have the same number of entries. *)
Lemma inverse_size (fwd rev : gmap JsValue JsValue) :
  (∀ k v, fwd !! k = Some v ↔ rev !! v = Some k) →
  base.size fwd = base.size rev.
Proof.
  revert rev. induction fwd as [|i x m Hmi _ IH] using map_first_key_ind;
    intros rev Hinv.
  - rewrite map_size_empty. symmetry. apply map_size_empty_iff.
    apply map_empty. intros v. destruct (rev !! v) as [k|] eqn:Hrv; [|done].
    apply Hinv in Hrv. by rewrite lookup_empty in Hrv.
  - assert (rev !! x = Some i) as Hrx.
    { apply Hinv. apply lookup_insert_eq. }
    rewrite map_size_insert_None by done.
    rewrite <- (insert_delete_id rev x i) by done.
    rewrite map_size_insert_None by apply lookup_delete_eq.
    f_equal. apply IH. intros k v.
    pose proof (Hinv k v) as H1. pose proof (Hinv i v) as H2.
    pose proof (Hinv k x) as H3.
    revert H1 H2 H3. clear Hinv IH. split_lookups.
Qed.

Lemma wf_I1 (bm : t) : wf bm → I1 bm.
Proof.
  intros [Hinv _]. split.
  - intros k v Hkv. unfold get, getReverse, JsMap.get.
    rewrite Hkv. apply Hinv in Hkv. by rewrite Hkv.
  - intros v k Hvk. by apply Hinv.
Qed.

Lemma wf_I3 (bm : t) : wf bm → I3 bm.
Proof.
  intros [Hinv _]. unfold I3, size, JsMap.size.
  rewrite (inverse_size _ _ Hinv). done.
Qed.

(** The instance [set] leaves behind always ends with the new pair written
    to both mappings. *)
Lemma set_shape (k v : JsValue) (bm : t) :
  ∃ A B, set k v bm = mk (<[k:=v]> A) (<[v:=k]> B).
Proof. unfold set, JsMap.set. eauto. Qed.

Lemma set_fresh (k v : JsValue) (fwd rev : gmap JsValue JsValue) :
  fwd !! k = None → rev !! v = None →
  set k v (mk fwd rev) = mk (<[k:=v]> fwd) (<[v:=k]> rev).
Proof.
  intros Hk Hv. unfold set, JsMap.get, JsMap.set. bm_cbn.
  rewrite Hk. bm_cbn. rewrite strict_not_equals_refl, Hv. bm_cbn.
  by rewrite strict_not_equals_refl.
Qed.

Lemma for_of_set_run (pairs : list (JsValue * JsValue)) (bm : t) :
  for_of_set pairs bm = run (map (λ kv, OpSet kv.1 kv.2) pairs) bm.
Proof.
  revert bm. induction pairs as [|[k v] pairs IH]; intros bm; [done|].
  simpl. apply IH.
Qed.

(** ** Insertion *)

(** The double collision of the specification's example: on an empty
    container, [set("a", 1); set("b", 2); set("a", 2)] leaves one entry,
    with [get("a") = 2], [getReverse(2) = "a"] and [getReverse(1)] absent.
    The third call's key collides with the entry [("a", 1)] and its value
    with the other entry [("b", 2)]; both are evicted and replaced by
    [("a", 2)], and [size] goes from 2 to 1. *)
Example double_collision_example :
  let bm0 := set (JsString "b") (JsNumber 2)
               (set (JsString "a") (JsNumber 1) empty) in
  let bm := set (JsString "a") (JsNumber 2) bm0 in
  bm0 = mk {[JsString "a" := JsNumber 1; JsString "b" := JsNumber 2]}
           {[JsNumber 1 := JsString "a"; JsNumber 2 := JsString "b"]} ∧
  size bm0 = 2 ∧
  size bm = 1 ∧
  get bm (JsString "a") = JsNumber 2 ∧
  getReverse bm (JsNumber 2) = JsString "a" ∧
  getReverse bm (JsNumber 1) = JsUndefined ∧
  hasReverse bm (JsNumber 1) = false ∧
  get bm (JsString "b") = JsUndefined ∧
  has bm (JsString "b") = false ∧
  bm = mk {[JsString "a" := JsNumber 2]} {[JsNumber 2 := JsString "a"]}.
Proof. vm_compute. by repeat split. Qed.

(** C4, evaluated where the code departs from it.  The rule that a [set]
    whose key collides with one entry and whose value collides with another
    evicts both and leaves one entry fails when the entry to evict holds
    [undefined].  After [set("a", 1); set(undefined, 2)] the container holds
    the two entries [("a", 1)] and [(undefined, 2)] in both mappings;
    [set("a", 2)] then reads the old key [undefined] as "no old key" and
    keeps [(undefined, 2)]: [size] stays 2 and two keys map to 2.  After
    [set("a", undefined); set("b", 2)], [set("a", 2)] reads the old value
    [undefined] as "no old value" and keeps the reverse entry
    [(undefined, "a")]. *)
Lemma C4_double_collision_keeps_undefined_entry :
  let by_key0 := set JsUndefined (JsNumber 2)
                   (set (JsString "a") (JsNumber 1) empty) in
  let by_key := set (JsString "a") (JsNumber 2) by_key0 in
  let by_value0 := set (JsString "b") (JsNumber 2)
                     (set (JsString "a") JsUndefined empty) in
  let by_value := set (JsString "a") (JsNumber 2) by_value0 in
  (by_key0 = mk {[JsString "a" := JsNumber 1; JsUndefined := JsNumber 2]}
                {[JsNumber 1 := JsString "a"; JsNumber 2 := JsUndefined]} ∧
   size by_key0 = 2 ∧
   size by_key = 2 ∧
   has by_key JsUndefined = true ∧
   get by_key JsUndefined = JsNumber 2 ∧
   get by_key (JsString "a") = JsNumber 2 ∧
   getReverse by_key (JsNumber 2) = JsString "a" ∧
   by_key = mk {[JsString "a" := JsNumber 2; JsUndefined := JsNumber 2]}
               {[JsNumber 2 := JsString "a"]}) ∧
  (by_value0
   = mk {[JsString "a" := JsUndefined; JsString "b" := JsNumber 2]}
        {[JsUndefined := JsString "a"; JsNumber 2 := JsString "b"]} ∧
   size by_value0 = 2 ∧
   size by_value = 1 ∧
   base.size (reverseMap by_value) = 2 ∧
   hasReverse by_value JsUndefined = true ∧
   getReverse by_value JsUndefined = JsString "a" ∧
   get by_value (JsString "a") = JsNumber 2 ∧
   by_value = mk {[JsString "a" := JsNumber 2]}
                 {[JsUndefined := JsString "a";
                   JsNumber 2 := JsString "a"]}).
Proof. vm_compute. by repeat split. Qed.

(** X8: double-collision eviction in general.  In every container state
    that holds two distinct entries [(k, w)] and [(k', v)] in both mappings,
    with the old value [w] and the old key [k'] not [undefined],
    [set(k, v)] removes [k'] from the forward and [w] from the reverse
    mapping and writes [(k, v)], so both mappings lose one entry. *)
Theorem set_double_collision (bm : t) (k k' v w : JsValue) :
  super bm !! k = Some w → reverseMap bm !! w = Some k →
  super bm !! k' = Some v → reverseMap bm !! v = Some k' →
  k ≠ k' → w ≠ JsUndefined → k' ≠ JsUndefined →
  let bm' := set k v bm in
  super bm' = <[k:=v]> (base.delete k' (super bm)) ∧
  reverseMap bm' = <[v:=k]> (base.delete w (reverseMap bm)) ∧
  S (size bm') = size bm ∧
  S (base.size (reverseMap bm')) = base.size (reverseMap bm) ∧
  get bm' k = v ∧ getReverse bm' v = k ∧
  has bm' k' = false ∧ hasReverse bm' w = false.
Proof.
  intros Hk Hw Hk' Hv Hne Hwd Hk'd bm'. subst bm'.
  destruct bm as [fwd rev]. simpl in *.
  assert (w ≠ v) as Hwv by (intros ->; congruence).
  unfold set, get, getReverse, has, hasReverse, size, JsMap.get, JsMap.set,
    JsMap.delete, JsMap.has, JsMap.size. simpl.
  rewrite Hk. simpl. rewrite (strict_not_equals_true w) by done. simpl.
  rewrite lookup_delete_ne, Hv by done. simpl.
  rewrite (strict_not_equals_true k') by done. simpl.
  rewrite !lookup_insert_eq. simpl.
  rewrite !map_size_insert_Some
    by (rewrite lookup_delete_ne by done; eauto).
  rewrite !map_size_delete_Some by eauto.
  assert (base.size fwd ≠ 0) by (eapply map_size_ne_0_lookup_2; eauto).
  assert (base.size rev ≠ 0) by (eapply map_size_ne_0_lookup_2; eauto).
  split_and!; try done; try lia.
  - apply bool_decide_eq_false_2. intros [x Hx].
    rewrite lookup_insert_ne, lookup_delete_eq in Hx by done. done.
  - apply bool_decide_eq_false_2. intros [x Hx].
    rewrite lookup_insert_ne, lookup_delete_eq in Hx by done. done.
Qed.

Lemma set_double_collision_witness :
  let bm := run [OpSet (JsNumber 1) (JsString "one");
                 OpSet (JsNumber 2) (JsString "two")] empty in
  let bm' := set (JsNumber 1) (JsString "two") bm in
  super bm' = <[JsNumber 1:=JsString "two"]>
                (base.delete (JsNumber 2) (super bm)) ∧
  reverseMap bm' = <[JsString "two":=JsNumber 1]>
                     (base.delete (JsString "one") (reverseMap bm)) ∧
  S (size bm') = size bm ∧
  S (base.size (reverseMap bm')) = base.size (reverseMap bm) ∧
  get bm' (JsNumber 1) = JsString "two" ∧
  getReverse bm' (JsString "two") = JsNumber 1 ∧
  has bm' (JsNumber 2) = false ∧ hasReverse bm' (JsString "one") = false.
Proof.
  apply (set_double_collision
           (run [OpSet (JsNumber 1) (JsString "one");
                 OpSet (JsNumber 2) (JsString "two")] empty)
           (JsNumber 1) (JsNumber 2) (JsString "two") (JsString "one"));
    first [discriminate | vm_compute; reflexivity].
Defined.

(** C6, evaluated where the code departs from it: with [k1 = undefined],
    [set(k1, v); set(k2, v)] on an empty container keeps both keys, because
    [set] reads the old key [undefined] as "no old key".  [size] is 2 and
    [get(k1)] is still [v]. *)
Lemma C6_undefined_first_key_not_evicted :
  let bm := set (JsString "a") (JsNumber 1)
              (set JsUndefined (JsNumber 1) empty) in
  JsUndefined ≠ JsString "a" ∧
  size bm = 2 ∧
  has bm JsUndefined = true ∧ get bm JsUndefined = JsNumber 1 ∧
  get bm (JsString "a") = JsNumber 1 ∧
  getReverse bm (JsNumber 1) = JsString "a".
Proof. vm_compute. by repeat split. Qed.

(** X5: uniqueness on insert when the first key is defined: for [k1 ≠ k2] with
    [k1] not [undefined], and any value [v], [set(k1, v); set(k2, v)] on an
    empty container leaves one entry, [get(k2) = v], [k1] absent and
    [getReverse(v) = k2]. *)
Theorem set_same_value_evicts_defined_key (k1 k2 v : JsValue) :
  k1 ≠ k2 → k1 ≠ JsUndefined →
  let bm := set k2 v (set k1 v empty) in
  size bm = 1 ∧ get bm k2 = v ∧
  get bm k1 = JsUndefined ∧ has bm k1 = false ∧
  getReverse bm v = k2.
Proof.
  intros Hne Hk1 bm. subst bm. unfold empty.
  rewrite set_fresh by apply lookup_empty.
  unfold set, get, getReverse, has, size, JsMap.get, JsMap.set,
    JsMap.delete, JsMap.has, JsMap.size. bm_cbn.
  rewrite (lookup_insert_ne _ k1 k2), lookup_empty by done. bm_cbn.
  rewrite strict_not_equals_refl, lookup_insert_eq. bm_cbn.
  rewrite (strict_not_equals_true k1) by done. bm_cbn.
  rewrite delete_insert_eq, !lookup_insert_eq.
  rewrite lookup_insert_ne, lookup_delete_eq by done. bm_cbn.
  rewrite map_size_insert_None
    by (rewrite lookup_delete_ne by done; apply lookup_empty).
  rewrite delete_empty, map_size_empty.
  by repeat split.
Qed.

Lemma set_same_value_evicts_defined_key_witness :
  let bm := set (JsNumber 2) (JsString "one")
              (set (JsNumber 1) (JsString "one") empty) in
  size bm = 1 ∧ get bm (JsNumber 2) = JsString "one" ∧
  get bm (JsNumber 1) = JsUndefined ∧ has bm (JsNumber 1) = false ∧
  getReverse bm (JsString "one") = JsNumber 2.
Proof.
  apply (set_same_value_evicts_defined_key
           (JsNumber 1) (JsNumber 2) (JsString "one"));
    discriminate.
Defined.

(** X6: uniqueness on insert, value side: for [v1 ≠ v2] with [v1] not
    [undefined], and any key [k], [set(k, v1); set(k, v2)] on an empty
    container leaves one entry, [get(k) = v2], [v1] absent from the reverse
    mapping and [getReverse(v2) = k]. *)
Theorem set_same_key_evicts_defined_value (k v1 v2 : JsValue) :
  v1 ≠ v2 → v1 ≠ JsUndefined →
  let bm := set k v2 (set k v1 empty) in
  size bm = 1 ∧ get bm k = v2 ∧
  getReverse bm v1 = JsUndefined ∧ hasReverse bm v1 = false ∧
  getReverse bm v2 = k.
Proof.
  intros Hne Hv1 bm. subst bm. unfold empty.
  rewrite set_fresh by apply lookup_empty.
  unfold set, get, getReverse, hasReverse, size, JsMap.get, JsMap.set,
    JsMap.delete, JsMap.has, JsMap.size. bm_cbn.
  rewrite lookup_insert_eq. bm_cbn.
  rewrite (strict_not_equals_true v1) by done. bm_cbn.
  rewrite delete_insert_eq, delete_empty, lookup_empty. bm_cbn.
  rewrite strict_not_equals_refl, insert_insert_eq, !lookup_insert_eq.
  rewrite lookup_insert_ne, lookup_empty by done. bm_cbn.
  rewrite map_size_insert_None, map_size_empty by apply lookup_empty.
  by repeat split.
Qed.

Lemma set_same_key_evicts_defined_value_witness :
  let bm := set (JsString "k") (JsNumber 2)
              (set (JsString "k") (JsNumber 1) empty) in
  size bm = 1 ∧ get bm (JsString "k") = JsNumber 2 ∧
  getReverse bm (JsNumber 1) = JsUndefined ∧
  hasReverse bm (JsNumber 1) = false ∧
  getReverse bm (JsNumber 2) = JsString "k".
Proof.
  apply (set_same_key_evicts_defined_value
           (JsString "k") (JsNumber 1) (JsNumber 2));
    discriminate.
Defined.

(** C10: for [k] and [v] distinct from [undefined] and every container
    state, [set(k, v)] called twice in a row leaves the same forward and
    reverse mappings, hence the same [size], as one call. *)
Theorem C10_set_idempotent (k v : JsValue) (bm : t) :
  k ≠ JsUndefined → v ≠ JsUndefined →
  set k v (set k v bm) = set k v bm ∧
  size (set k v (set k v bm)) = size (set k v bm).
Proof.
  intros _ Hv.
  assert (set k v (set k v bm) = set k v bm) as Heq; [|by rewrite Heq].
  destruct (set_shape k v bm) as (A & B & ->).
  unfold set, JsMap.get, JsMap.set, JsMap.delete. simpl.
  rewrite lookup_insert_eq. simpl.
  rewrite (strict_not_equals_true v) by done. simpl.
  rewrite lookup_delete_eq. simpl.
  by rewrite insert_insert_eq, insert_delete_eq, insert_insert_eq.
Qed.

Lemma C10_set_idempotent_witness :
  let bm := set (JsString "b") (JsNumber 1)
              (set (JsString "a") (JsNumber 2) empty) in
  set (JsString "a") (JsNumber 1) (set (JsString "a") (JsNumber 1) bm)
    = set (JsString "a") (JsNumber 1) bm ∧
  size (set (JsString "a") (JsNumber 1) (set (JsString "a") (JsNumber 1) bm))
    = size (set (JsString "a") (JsNumber 1) bm).
Proof.
  apply (C10_set_idempotent (JsString "a") (JsNumber 1)); discriminate.
Defined.

(** ** Removal *)

(** [delete] of a key without an entry returns [false] and changes nothing,
    in every container state. *)
Lemma delete_absent (k : JsValue) (bm : t) :
  has bm k = false → delete k bm = (false, bm).
Proof.
  unfold has, delete, JsMap.has, JsMap.get. intros Hk.
  apply bool_decide_eq_false in Hk.
  destruct (super bm !! k) as [w|] eqn:Hw; [by destruct Hk; eauto|].
  bm_cbn. by rewrite strict_equals_refl.
Qed.

Lemma deleteReverse_absent (v : JsValue) (bm : t) :
  hasReverse bm v = false → deleteReverse v bm = (false, bm).
Proof.
  unfold hasReverse, deleteReverse, JsMap.has, JsMap.get. intros Hv.
  apply bool_decide_eq_false in Hv.
  destruct (reverseMap bm !! v) as [w|] eqn:Hw; [by destruct Hv; eauto|].
  bm_cbn. by rewrite strict_equals_refl.
Qed.

(** C9: in every container state where key [k] is stored with the value
    [undefined], [has(k)] is true, yet [delete(k)] returns [false] and
    leaves both mappings as they were. *)
Theorem C9_delete_ignores_undefined_value (bm : t) (k : JsValue) :
  super bm !! k = Some JsUndefined →
  has bm k = true ∧
  (delete k bm).1 = false ∧
  super (delete k bm).2 = super bm ∧
  reverseMap (delete k bm).2 = reverseMap bm.
Proof.
  intros Hk. unfold has, delete, JsMap.has, JsMap.get. rewrite Hk. bm_cbn.
  rewrite strict_equals_refl. bm_cbn.
  by repeat split.
Qed.

Lemma C9_delete_ignores_undefined_value_witness :
  let bm := set (JsString "x") JsUndefined
              (set (JsString "one") (JsNumber 1) empty) in
  has bm (JsString "x") = true ∧
  (delete (JsString "x") bm).1 = false ∧
  super (delete (JsString "x") bm).2 = super bm ∧
  reverseMap (delete (JsString "x") bm).2 = reverseMap bm.
Proof.
  apply (C9_delete_ignores_undefined_value
           (set (JsString "x") JsUndefined
              (set (JsString "one") (JsNumber 1) empty))
           (JsString "x")).
  vm_compute. reflexivity.
Defined.

(** C2, evaluated where the code departs from it: after
    [set("a", undefined)] the pair is in the container and [has("a")] is
    true, but [delete("a")] returns [false] and removes nothing, since
    [delete] reads the stored value [undefined] as "no entry". *)
Lemma C2_delete_inserted_undefined_value :
  let bm := set (JsString "a") JsUndefined empty in
  has bm (JsString "a") = true ∧
  hasReverse bm JsUndefined = true ∧
  getReverse bm JsUndefined = JsString "a" ∧
  delete (JsString "a") bm = (false, bm) ∧
  has (delete (JsString "a") bm).2 (JsString "a") = true ∧
  getReverse (delete (JsString "a") bm).2 JsUndefined = JsString "a".
Proof. vm_compute. by repeat split. Qed.

(** X3: deletion symmetry for a defined value: after [set(k, v)] with [v]
    not [undefined], in every container state, [delete(k)] returns [true]
    and leaves [k] and [v] absent from both mappings; a second [delete(k)]
    returns [false] and changes nothing. *)
Theorem delete_inserted_defined_value (k v : JsValue) (bm : t) :
  v ≠ JsUndefined →
  let r := delete k (set k v bm) in
  r.1 = true ∧
  get r.2 k = JsUndefined ∧ has r.2 k = false ∧
  getReverse r.2 v = JsUndefined ∧ hasReverse r.2 v = false ∧
  delete k r.2 = (false, r.2).
Proof.
  intros Hv r. subst r.
  destruct (set_shape k v bm) as (A & B & ->).
  assert (delete k (mk (<[k:=v]> A) (<[v:=k]> B))
          = (true, mk (base.delete k A) (base.delete v B))) as ->.
  { unfold delete, JsMap.get, JsMap.delete, JsMap.has. bm_cbn.
    rewrite lookup_insert_eq. bm_cbn.
    rewrite (strict_equals_false v) by done.
    by rewrite !delete_insert_eq. }
  bm_cbn.
  assert (has (mk (base.delete k A) (base.delete v B)) k = false) as Hk.
  { unfold has, JsMap.has. bm_cbn. rewrite lookup_delete_eq.
    apply bool_decide_eq_false_2. by intros [x Hx]. }
  unfold get, getReverse, hasReverse, JsMap.get, JsMap.has. bm_cbn.
  rewrite !lookup_delete_eq. bm_cbn.
  repeat split; [done|by apply delete_absent].
Qed.

Lemma delete_inserted_defined_value_witness :
  let r := delete (JsString "one")
             (set (JsString "one") (JsNumber 1) empty) in
  r.1 = true ∧
  get r.2 (JsString "one") = JsUndefined ∧
  has r.2 (JsString "one") = false ∧
  getReverse r.2 (JsNumber 1) = JsUndefined ∧
  hasReverse r.2 (JsNumber 1) = false ∧
  delete (JsString "one") r.2 = (false, r.2).
Proof.
  apply (delete_inserted_defined_value (JsString "one") (JsNumber 1) empty).
  discriminate.
Defined.

(** C7, evaluated where the code departs from it: after
    [set(undefined, 1)] the pair is in the container and [hasReverse(1)] is
    true, but [deleteReverse(1)] returns [false] and removes nothing, since
    [deleteReverse] reads the stored key [undefined] as "no entry";
    [delete(undefined)] does remove the pair and returns [true]. *)
Lemma C7_deleteReverse_inserted_undefined_key :
  let bm := set JsUndefined (JsNumber 1) empty in
  has bm JsUndefined = true ∧
  hasReverse bm (JsNumber 1) = true ∧
  get bm JsUndefined = JsNumber 1 ∧
  deleteReverse (JsNumber 1) bm = (false, bm) ∧
  get (deleteReverse (JsNumber 1) bm).2 JsUndefined = JsNumber 1 ∧
  delete JsUndefined bm = (true, empty).
Proof. vm_compute. by repeat split. Qed.

(** X4: reverse deletion symmetry for a defined key: after [set(k, v)]
    with [k] not [undefined], in every container state, [deleteReverse(v)]
    returns [true] and leaves [k] and [v] absent from both mappings; a
    second [deleteReverse(v)] returns [false] and changes nothing; and when
    [v] is not [undefined] either, [deleteReverse(v)] and [delete(k)] return
    the same boolean and the same container. *)
Theorem deleteReverse_inserted_defined_key (k v : JsValue) (bm : t) :
  k ≠ JsUndefined →
  let r := deleteReverse v (set k v bm) in
  r.1 = true ∧
  get r.2 k = JsUndefined ∧ has r.2 k = false ∧
  getReverse r.2 v = JsUndefined ∧ hasReverse r.2 v = false ∧
  deleteReverse v r.2 = (false, r.2) ∧
  (v ≠ JsUndefined → r = delete k (set k v bm)).
Proof.
  intros Hk r. subst r.
  destruct (set_shape k v bm) as (A & B & ->).
  assert (deleteReverse v (mk (<[k:=v]> A) (<[v:=k]> B))
          = (true, mk (base.delete k A) (base.delete v B))) as ->.
  { unfold deleteReverse, JsMap.get, JsMap.delete, JsMap.has. bm_cbn.
    rewrite lookup_insert_eq. bm_cbn.
    rewrite (strict_equals_false k) by done.
    by rewrite !delete_insert_eq. }
  bm_cbn.
  assert (hasReverse (mk (base.delete k A) (base.delete v B)) v = false)
    as Hrv.
  { unfold hasReverse, JsMap.has. bm_cbn. rewrite lookup_delete_eq.
    apply bool_decide_eq_false_2. by intros [x Hx]. }
  unfold get, getReverse, has, JsMap.get, JsMap.has. bm_cbn.
  rewrite !lookup_delete_eq. bm_cbn.
  repeat split; [done|by apply deleteReverse_absent|].
  intros Hv. unfold delete, JsMap.get, JsMap.delete, JsMap.has. bm_cbn.
  rewrite lookup_insert_eq. bm_cbn.
  rewrite (strict_equals_false v) by done.
  by rewrite !delete_insert_eq.
Qed.

Lemma deleteReverse_inserted_defined_key_witness :
  let r := deleteReverse (JsNumber 1)
             (set (JsString "one") (JsNumber 1) empty) in
  r.1 = true ∧
  get r.2 (JsString "one") = JsUndefined ∧
  has r.2 (JsString "one") = false ∧
  getReverse r.2 (JsNumber 1) = JsUndefined ∧
  hasReverse r.2 (JsNumber 1) = false ∧
  deleteReverse (JsNumber 1) r.2 = (false, r.2) ∧
  (JsNumber 1 ≠ JsUndefined →
   r = delete (JsString "one") (set (JsString "one") (JsNumber 1) empty)).
Proof.
  apply (deleteReverse_inserted_defined_key
           (JsString "one") (JsNumber 1) empty).
  discriminate.
Defined.

(** ** Invariants over sequences of calls *)

(** C1, evaluated where the code departs from it: from an empty container,
    [set("k", undefined); set("k", 1)] leaves the reverse entry
    [(undefined, "k")] behind although the forward mapping holds
    [("k", 1)], because [set] reads the old value [undefined] as "no old
    value".  The two mappings are not inverses and I1 fails. *)
Lemma C1_stale_reverse_entry_after_undefined_value :
  let bm := run [OpSet (JsString "k") JsUndefined;
                 OpSet (JsString "k") (JsNumber 1)] empty in
  super bm = {[JsString "k" := JsNumber 1]} ∧
  reverseMap bm !! JsUndefined = Some (JsString "k") ∧
  reverseMap bm !! JsNumber 1 = Some (JsString "k") ∧
  getReverse bm JsUndefined = JsString "k" ∧
  get bm (JsString "k") = JsNumber 1 ∧
  ¬ I1 bm.
Proof.
  cbv zeta. repeat split; try (vm_compute; reflexivity).
  intros [_ Hrev].
  specialize (Hrev JsUndefined (JsString "k")).
  vm_compute in Hrev. specialize (Hrev eq_refl). discriminate.
Qed.

(** X1: I1 when no [undefined] is stored: from an empty container, after
    any finite sequence of [set], [delete], [deleteReverse] and [clear]
    calls in which no [set] has an [undefined] key or value, the forward and
    the reverse mapping are inverses of each other. *)
Theorem I1_after_defined_calls (ops : list Op) :
  forallb op_defined ops = true →
  I1 (run ops empty) ∧ inverse_maps (run ops empty).
Proof.
  intros Hops. pose proof (run_preserves_wf ops empty Hops wf_empty) as Hwf.
  split; [by apply wf_I1|by destruct Hwf].
Qed.

Lemma I1_after_defined_calls_witness :
  let ops := [OpSet (JsString "a") (JsNumber 1);
              OpSet (JsString "b") (JsNumber 2);
              OpSet (JsString "a") (JsNumber 2);
              OpDeleteReverse (JsNumber 7);
              OpDelete JsUndefined;
              OpDelete (JsString "b")] in
  I1 (run ops empty) ∧ inverse_maps (run ops empty).
Proof. apply I1_after_defined_calls. reflexivity. Defined.

(** C5, evaluated where the code departs from it: from an empty container,
    [set(undefined, 1); set("a", 1)] leaves two forward entries and one
    reverse entry, because [set] reads the old key [undefined] as "no old
    key".  [size] reports 2 and I3 fails. *)
Lemma C5_sizes_differ_after_undefined_key :
  let bm := run [OpSet JsUndefined (JsNumber 1);
                 OpSet (JsString "a") (JsNumber 1)] empty in
  size bm = 2 ∧
  base.size (super bm) = 2 ∧
  base.size (reverseMap bm) = 1 ∧
  ¬ I3 bm.
Proof.
  cbv zeta. repeat split; try (vm_compute; reflexivity).
  intros [Hsz _]. vm_compute in Hsz. discriminate.
Qed.

(** X2: I3 when no [undefined] is stored: after the construction of an
    empty container and after each call of a finite sequence of [set],
    [delete], [deleteReverse] and [clear] calls in which no [set] has an
    [undefined] key or value, both mappings have as many entries as [size]
    reports. *)
Theorem I3_after_defined_calls (ops : list Op) :
  forallb op_defined ops = true →
  I3 (run ops empty).
Proof.
  intros Hops. apply wf_I3. by apply run_preserves_wf, wf_empty.
Qed.

Lemma I3_after_defined_calls_witness :
  I3 (run [OpSet (JsString "a") (JsNumber 1);
           OpSet (JsString "b") (JsNumber 2);
           OpSet (JsString "a") (JsNumber 2);
           OpClear;
           OpSet (JsString "c") (JsNumber 3)] empty).
Proof. apply I3_after_defined_calls. reflexivity. Defined.

(** X7: clear resets to empty: after [clear()], in every container state,
    [size] is 0 and every key and value is absent. *)
Theorem clear_resets (bm : t) (k v : JsValue) :
  size (clear bm) = 0 ∧
  clear bm = empty ∧
  get (clear bm) k = JsUndefined ∧ has (clear bm) k = false ∧
  getReverse (clear bm) v = JsUndefined ∧ hasReverse (clear bm) v = false.
Proof.
  unfold clear, size, get, has, getReverse, hasReverse, empty, JsMap.clear,
    JsMap.size, JsMap.get, JsMap.has. bm_cbn.
  rewrite map_size_empty, !lookup_empty. by repeat split.
Qed.

(** ** Absence *)

(** C3 fails as stated: absence is reported by the data value [undefined].
    A container holding [("a", undefined)] and an empty one answer
    [get("a")] alike, and one holding [(undefined, 1)] and an empty one
    answer [getReverse(1)] alike, although membership differs. *)
Lemma C3_undefined_overloaded_as_absent :
  let stored := run [OpSet (JsString "a") JsUndefined] empty in
  let keyed := run [OpSet JsUndefined (JsNumber 1)] empty in
  get stored (JsString "a") = get empty (JsString "a") ∧
  has stored (JsString "a") = true ∧
  has empty (JsString "a") = false ∧
  getReverse keyed (JsNumber 1) = getReverse empty (JsNumber 1) ∧
  hasReverse keyed (JsNumber 1) = true ∧
  hasReverse empty (JsNumber 1) = false.
Proof. vm_compute. by repeat split. Qed.

(** C3 as amended: absence is reported by [undefined] itself.  In a
    container built from an empty one by calls in which no [set] has an
    [undefined] key or value, for every key [k] and value [v], [get(k)] is
    [undefined] exactly when [has(k)] is false, [getReverse(v)] is
    [undefined] exactly when [hasReverse(v)] is false, [delete(k)] returns
    [has(k)] and [deleteReverse(v)] returns [hasReverse(v)]. *)
Theorem C3_absence_unambiguous_without_undefined
  (ops : list Op) (k v : JsValue) :
  forallb op_defined ops = true →
  let bm := run ops empty in
  (get bm k = JsUndefined ↔ has bm k = false) ∧
  (getReverse bm v = JsUndefined ↔ hasReverse bm v = false) ∧
  (delete k bm).1 = has bm k ∧
  (deleteReverse v bm).1 = hasReverse bm v.
Proof.
  intros Hops bm.
  destruct (run_preserves_wf ops empty Hops wf_empty) as [Hinv Hdef].
  fold bm in Hinv, Hdef. clearbody bm.
  unfold inverse_maps, defined_entries in *.
  unfold get, getReverse, has, hasReverse, delete, deleteReverse,
    JsMap.delete, JsMap.get, JsMap.has.
  assert (∀ o : option JsValue,
            (∀ x, o = Some x → x ≠ JsUndefined) →
            (default JsUndefined o = JsUndefined
             ↔ bool_decide (is_Some o) = false) ∧
            strict_equals (default JsUndefined o) JsUndefined
            = negb (bool_decide (is_Some o))) as Hopt.
  { intros [x|] Hx; simpl.
    - rewrite strict_equals_false by eauto. split; [|done].
      split; [by intros ?%(Hx x eq_refl)|done].
    - by rewrite strict_equals_refl. }
  destruct (Hopt (super bm !! k)) as [Hg Hd].
  { intros x Hx. by destruct (Hdef _ _ Hx). }
  destruct (Hopt (reverseMap bm !! v)) as [Hgr Hdr].
  { intros x Hx. apply Hinv in Hx. by destruct (Hdef _ _ Hx). }
  rewrite Hd, Hdr. split_and!; [done|done| |].
  - by destruct (bool_decide (is_Some (super bm !! k))).
  - by destruct (bool_decide (is_Some (reverseMap bm !! v))).
Qed.

Lemma C3_absence_unambiguous_without_undefined_witness :
  let bm := run [OpSet (JsString "a") (JsNumber 1);
                 OpSet (JsString "b") (JsNumber 2)] empty in
  (get bm (JsString "a") = JsUndefined ↔ has bm (JsString "a") = false) ∧
  (getReverse bm (JsNumber 3) = JsUndefined
   ↔ hasReverse bm (JsNumber 3) = false) ∧
  (delete (JsString "a") bm).1 = has bm (JsString "a") ∧
  (deleteReverse (JsNumber 3) bm).1 = hasReverse bm (JsNumber 3).
Proof.
  apply (C3_absence_unambiguous_without_undefined
           [OpSet (JsString "a") (JsNumber 1);
            OpSet (JsString "b") (JsNumber 2)]
           (JsString "a") (JsNumber 3)).
  reflexivity.
Defined.

(** ** Construction *)

(** C8: constructing the container from a finite sequence of pairs gives
    the same forward mapping, reverse mapping and [size] as constructing an
    empty container and calling [set] for each pair in order. *)
Theorem C8_constructor_is_set_each (pairs : list (JsValue * JsValue)) :
  constructor (Some pairs) = construct_by_sets pairs ∧
  super (constructor (Some pairs)) = super (construct_by_sets pairs) ∧
  reverseMap (constructor (Some pairs))
    = reverseMap (construct_by_sets pairs) ∧
  size (constructor (Some pairs)) = size (construct_by_sets pairs).
Proof.
  assert (constructor (Some pairs) = construct_by_sets pairs) as ->;
    [|done].
  unfold constructor, construct_by_sets. apply for_of_set_run.
Qed.

(** ** Further support *)

Ltac bm_cbn_all := cbn [super reverseMap fst snd default negb] in *.

Lemma has_false_lookup (m : gmap JsValue JsValue) (k : JsValue) :
  JsMap.has m k = false ↔ m !! k = None.
Proof.
  unfold JsMap.has. rewrite bool_decide_eq_false.
  split; [by intros ?%eq_None_not_Some|by intros -> [x Hx]].
Qed.

Lemma has_true_lookup (m : gmap JsValue JsValue) (k : JsValue) :
  JsMap.has m k = true ↔ is_Some (m !! k).
Proof. unfold JsMap.has. apply bool_decide_eq_true. Qed.

Lemma run_wf (ops : list Op) :
  forallb op_defined ops = true → wf (run ops empty).
Proof. intros Hops. by apply run_preserves_wf, wf_empty. Qed.

Lemma size_empty : size empty = 0.
Proof. unfold size, empty, JsMap.size. bm_cbn. apply map_size_empty. Qed.

Lemma map_size_delete_le (m : gmap JsValue JsValue) (k : JsValue) :
  base.size (base.delete k m) ≤ base.size m ∧
  base.size m ≤ S (base.size (base.delete k m)).
Proof. rewrite map_size_delete. destruct (m !! k); simpl; lia. Qed.

Lemma map_size_insert_le (m : gmap JsValue JsValue) (k v : JsValue) :
  base.size m ≤ base.size (<[k:=v]> m) ∧
  base.size (<[k:=v]> m) ≤ S (base.size m) ∧
  1 ≤ base.size (<[k:=v]> m).
Proof.
  rewrite map_size_insert. destruct (m !! k) eqn:Hk; simpl; [|lia].
  assert (base.size m ≠ 0) by (eapply map_size_ne_0_lookup_2; eauto). lia.
Qed.

(** The forward mapping [set] leaves behind: the new pair written over the
    old mapping, from which at most one key was removed. *)
Lemma set_forward_shape (k v : JsValue) (bm : t) :
  ∃ m, super (set k v bm) = <[k:=v]> m ∧
       base.size m ≤ size bm ∧ size bm ≤ S (base.size m).
Proof.
  destruct bm as [fwd rev].
  unfold set, size, JsMap.set, JsMap.delete, JsMap.size. bm_cbn.
  eexists. split; [reflexivity|].
  destruct (strict_not_equals _ _); bm_cbn; [|lia].
  apply map_size_delete_le.
Qed.

Lemma step_size_le (op : Op) (bm : t) :
  size (step bm op) ≤ size bm + (if is_set op then 1 else 0).
Proof.
  destruct op as [k v|k|v|]; cbn [step is_set].
  - destruct (set_forward_shape k v bm) as (m & Hm & Hle).
    unfold size at 1. unfold JsMap.size. rewrite Hm.
    pose proof (map_size_insert_le m k v). lia.
  - destruct bm as [fwd rev].
    unfold delete, size, JsMap.delete, JsMap.size. bm_cbn.
    destruct (strict_equals _ _); bm_cbn; [lia|].
    pose proof (map_size_delete_le fwd k). lia.
  - destruct bm as [fwd rev].
    unfold deleteReverse, size, JsMap.delete, JsMap.size. bm_cbn.
    destruct (strict_equals _ _); bm_cbn; [lia|].
    match goal with
    | |- context [base.delete ?x fwd] =>
        pose proof (map_size_delete_le fwd x)
    end. lia.
  - unfold clear, size, JsMap.clear, JsMap.size. bm_cbn.
    rewrite map_size_empty. lia.
Qed.

Lemma run_size_le (ops : list Op) (bm : t) :
  size (run ops bm) ≤ size bm + count_sets ops.
Proof.
  revert bm. induction ops as [|op ops IH]; intros bm.
  - unfold count_sets. simpl. lia.
  - change (run (op :: ops) bm) with (run ops (step bm op)).
    pose proof (IH (step bm op)) as H1.
    pose proof (step_size_le op bm) as H2.
    unfold count_sets in *. cbn [List.filter].
    destruct (is_set op); cbn [length]; lia.
Qed.

Lemma pairs_defined_ops (pairs : list (JsValue * JsValue)) :
  pairs_defined pairs = true →
  forallb op_defined (map (λ kv, OpSet kv.1 kv.2) pairs) = true.
Proof.
  unfold pairs_defined. induction pairs as [|p pairs IH]; [done|].
  cbn [forallb map]. intros [Hp Hps]%andb_true_iff.
  apply andb_true_iff. split; [done|by apply IH].
Qed.

Lemma for_of_set_app (pairs1 pairs2 : list (JsValue * JsValue)) (bm : t) :
  for_of_set (pairs1 ++ pairs2) bm
  = for_of_set pairs2 (for_of_set pairs1 bm).
Proof.
  revert bm. induction pairs1 as [|[k v] pairs1 IH]; intros bm; [done|].
  cbn [app for_of_set]. apply IH.
Qed.

(** Closes the side conditions of a theorem applied at concrete values. *)
Ltac by_evaluation :=
  first [ reflexivity | discriminate | vm_compute; reflexivity
        | let H := fresh in intros H; vm_compute in H; discriminate ].

(** ** What one call does *)

(** X9: insertion round trip.  In every container state and for every key
    and value, [undefined] included, right after [set(k, v)] both lookups
    answer with the new pair: [get(k) = v], [getReverse(v) = k], and
    [has(k)] and [hasReverse(v)] are true. *)
Theorem set_then_lookup (k v : JsValue) (bm : t) :
  get (set k v bm) k = v ∧ getReverse (set k v bm) v = k ∧
  has (set k v bm) k = true ∧ hasReverse (set k v bm) v = true.
Proof.
  destruct (set_shape k v bm) as (A & B & ->).
  unfold get, getReverse, has, hasReverse, JsMap.get, JsMap.has. bm_cbn.
  rewrite !lookup_insert_eq. by repeat split.
Qed.

(** X10: what [set] leaves alone.  In a container built without storing
    [undefined], [set(k, v)] keeps the entry of every other key [a], except
    that the key that held [v] loses its entry; and it keeps the reverse
    entry of every other value [b], except that the value [k] was stored
    with loses its reverse entry. *)
Theorem set_frame (ops : list Op) (k v a b : JsValue) :
  forallb op_defined ops = true → a ≠ k → b ≠ v →
  let bm := run ops empty in
  super (set k v bm) !! a
    = (if decide (super bm !! a = Some v) then None else super bm !! a) ∧
  reverseMap (set k v bm) !! b
    = (if decide (reverseMap bm !! b = Some k) then None
       else reverseMap bm !! b).
Proof.
  intros Hops Ha Hb bm. destruct (run_wf ops Hops) as [Hinv Hdef].
  fold bm in Hinv, Hdef. clearbody bm. destruct bm as [fwd rev].
  unfold inverse_maps, defined_entries in *. unfold_bm.
  pose proof (Hinv a v) as Hav. pose proof (Hinv k b) as Hkb.
  pose proof (Hinv k v) as Hkv.
  destruct (fwd !! k) as [w|] eqn:Hfk; simpl.
  - destruct (Hdef _ _ Hfk) as [_ Hw].
    rewrite (bool_decide_eq_false_2 (w = JsUndefined)) by done. simpl.
    pose proof (proj1 (Hinv _ _) Hfk) as Hrw.
    destruct (base.delete w rev !! v) as [k'|] eqn:Hrv; simpl.
    + apply lookup_delete_Some in Hrv as [Hwv Hrv].
      pose proof (proj2 (Hinv _ _) Hrv) as Hfk'.
      destruct (Hdef _ _ Hfk') as [Hk' _].
      rewrite (bool_decide_eq_false_2 (k' = JsUndefined)) by done. simpl.
      clear Hinv Hdef. split; split_lookups.
    + apply lookup_delete_None in Hrv.
      clear Hinv Hdef. split; split_lookups.
  - destruct (rev !! v) as [k'|] eqn:Hrv; simpl.
    + pose proof (proj2 (Hinv _ _) Hrv) as Hfk'.
      destruct (Hdef _ _ Hfk') as [Hk' _].
      rewrite (bool_decide_eq_false_2 (k' = JsUndefined)) by done. simpl.
      clear Hinv Hdef. split; split_lookups.
    + clear Hinv Hdef. split; split_lookups.
Qed.

Lemma set_frame_witness :
  let bm := run [OpSet (JsString "a") (JsNumber 1);
                 OpSet (JsString "b") (JsNumber 2);
                 OpSet (JsString "c") (JsNumber 3)] empty in
  super (set (JsString "a") (JsNumber 2) bm) !! JsString "c"
    = (if decide (super bm !! JsString "c" = Some (JsNumber 2)) then None
       else super bm !! JsString "c") ∧
  reverseMap (set (JsString "a") (JsNumber 2) bm) !! JsNumber 1
    = (if decide (reverseMap bm !! JsNumber 1 = Some (JsString "a"))
       then None else reverseMap bm !! JsNumber 1).
Proof.
  apply (set_frame [OpSet (JsString "a") (JsNumber 1);
                    OpSet (JsString "b") (JsNumber 2);
                    OpSet (JsString "c") (JsNumber 3)]
           (JsString "a") (JsNumber 2) (JsString "c") (JsNumber 1));
    by_evaluation.
Defined.

(** X11: the two outcomes of [delete], in every container state.  Either
    it returns [false] and the container is unchanged, or it returns
    [true], the key was present, the key and its value are absent
    afterwards, [size] has dropped by one, and every other key and every
    other value keeps its entry. *)
Theorem delete_outcome (k a b : JsValue) (bm : t) :
  a ≠ k → b ≠ get bm k →
  let r := delete k bm in
  (r.1 = false ∧ r.2 = bm) ∨
  (r.1 = true ∧ has bm k = true ∧
   has r.2 k = false ∧ hasReverse r.2 (get bm k) = false ∧
   S (size r.2) = size bm ∧
   super r.2 !! a = super bm !! a ∧
   reverseMap r.2 !! b = reverseMap bm !! b).
Proof.
  intros Ha Hb r. subst r. destruct bm as [fwd rev].
  unfold delete, get, has, hasReverse, size, JsMap.get, JsMap.delete,
    JsMap.size in *. bm_cbn_all.
  destruct (fwd !! k) as [w|] eqn:Hk; bm_cbn_all.
  - destruct (decide (w = JsUndefined)) as [->|Hw].
    + rewrite strict_equals_refl. by left.
    + rewrite (strict_equals_false w) by done. bm_cbn. right.
      assert (JsMap.has fwd k = true) as Hhas
        by (apply has_true_lookup; rewrite Hk; eauto).
      rewrite Hhas, !has_false_lookup, !lookup_delete_eq.
      rewrite !lookup_delete_ne by done.
      rewrite map_size_delete_Some by (rewrite Hk; eauto).
      assert (base.size fwd ≠ 0) by (eapply map_size_ne_0_lookup_2; eauto).
      split_and!; try done. lia.
  - rewrite strict_equals_refl. by left.
Qed.

Lemma delete_outcome_witness :
  let bm := run [OpSet (JsString "a") (JsNumber 1);
                 OpSet (JsString "b") (JsNumber 2)] empty in
  let r := delete (JsString "a") bm in
  (r.1 = false ∧ r.2 = bm) ∨
  (r.1 = true ∧ has bm (JsString "a") = true ∧
   has r.2 (JsString "a") = false ∧
   hasReverse r.2 (get bm (JsString "a")) = false ∧
   S (size r.2) = size bm ∧
   super r.2 !! JsString "b" = super bm !! JsString "b" ∧
   reverseMap r.2 !! JsNumber 2 = reverseMap bm !! JsNumber 2).
Proof.
  apply (delete_outcome (JsString "a") (JsString "b") (JsNumber 2)
           (run [OpSet (JsString "a") (JsNumber 1);
                 OpSet (JsString "b") (JsNumber 2)] empty));
    by_evaluation.
Defined.

(** X12: the two outcomes of [deleteReverse], in every container state.
    Either it returns [false] and the container is unchanged, or it returns
    [true], the value was present in the reverse mapping, the value and its
    key are absent afterwards, the reverse mapping has one entry fewer, and
    every other key and every other value keeps its entry. *)
Theorem deleteReverse_outcome (v a b : JsValue) (bm : t) :
  a ≠ getReverse bm v → b ≠ v →
  let r := deleteReverse v bm in
  (r.1 = false ∧ r.2 = bm) ∨
  (r.1 = true ∧ hasReverse bm v = true ∧
   hasReverse r.2 v = false ∧ has r.2 (getReverse bm v) = false ∧
   S (base.size (reverseMap r.2)) = base.size (reverseMap bm) ∧
   super r.2 !! a = super bm !! a ∧
   reverseMap r.2 !! b = reverseMap bm !! b).
Proof.
  intros Ha Hb r. subst r. destruct bm as [fwd rev].
  unfold deleteReverse, getReverse, has, hasReverse, JsMap.get,
    JsMap.delete in *. bm_cbn_all.
  destruct (rev !! v) as [k|] eqn:Hv; bm_cbn_all.
  - destruct (decide (k = JsUndefined)) as [->|Hk].
    + rewrite strict_equals_refl. by left.
    + rewrite (strict_equals_false k) by done. bm_cbn. right.
      assert (JsMap.has rev v = true) as Hhas
        by (apply has_true_lookup; rewrite Hv; eauto).
      rewrite Hhas, !has_false_lookup, !lookup_delete_eq.
      rewrite !lookup_delete_ne by done.
      rewrite map_size_delete_Some by (rewrite Hv; eauto).
      assert (base.size rev ≠ 0) by (eapply map_size_ne_0_lookup_2; eauto).
      split_and!; try done. lia.
  - rewrite strict_equals_refl. by left.
Qed.

Lemma deleteReverse_outcome_witness :
  let bm := run [OpSet (JsString "a") (JsNumber 1);
                 OpSet (JsString "b") (JsNumber 2)] empty in
  let r := deleteReverse (JsNumber 1) bm in
  (r.1 = false ∧ r.2 = bm) ∨
  (r.1 = true ∧ hasReverse bm (JsNumber 1) = true ∧
   hasReverse r.2 (JsNumber 1) = false ∧
   has r.2 (getReverse bm (JsNumber 1)) = false ∧
   S (base.size (reverseMap r.2)) = base.size (reverseMap bm) ∧
   super r.2 !! JsString "b" = super bm !! JsString "b" ∧
   reverseMap r.2 !! JsNumber 2 = reverseMap bm !! JsNumber 2).
Proof.
  apply (deleteReverse_outcome (JsNumber 1) (JsString "b") (JsNumber 2)
           (run [OpSet (JsString "a") (JsNumber 1);
                 OpSet (JsString "b") (JsNumber 2)] empty));
    by_evaluation.
Defined.

(** X13: removal undoes insertion.  In every container state where [k] has
    no forward entry and [v] no reverse entry, with [k] and [v] not
    [undefined], [set(k, v)] followed by [delete(k)], or by
    [deleteReverse(v)], returns [true] and gives back the container as it
    was. *)
Theorem set_then_remove_restores (k v : JsValue) (bm : t) :
  k ≠ JsUndefined → v ≠ JsUndefined →
  has bm k = false → hasReverse bm v = false →
  delete k (set k v bm) = (true, bm) ∧
  deleteReverse v (set k v bm) = (true, bm).
Proof.
  intros Hk Hv Hhk Hhv. destruct bm as [fwd rev].
  unfold has, hasReverse in *. bm_cbn_all.
  apply has_false_lookup in Hhk, Hhv.
  rewrite set_fresh by done.
  unfold delete, deleteReverse, JsMap.get, JsMap.delete. bm_cbn.
  rewrite !lookup_insert_eq. bm_cbn.
  rewrite (strict_equals_false k), (strict_equals_false v) by done.
  rewrite !delete_insert_id by done.
  split; f_equal; apply has_true_lookup; rewrite lookup_insert_eq; eauto.
Qed.

Lemma set_then_remove_restores_witness :
  let bm := run [OpSet (JsString "a") (JsNumber 1)] empty in
  delete (JsString "b") (set (JsString "b") (JsNumber 2) bm) = (true, bm) ∧
  deleteReverse (JsNumber 2) (set (JsString "b") (JsNumber 2) bm)
  = (true, bm).
Proof.
  apply (set_then_remove_restores (JsString "b") (JsNumber 2)
           (run [OpSet (JsString "a") (JsNumber 1)] empty));
    by_evaluation.
Defined.

(** X14: setting a stored pair again changes nothing.  In every container
    state that holds [(k, v)] in the forward and [(v, k)] in the reverse
    mapping, with [v] not [undefined], [set(k, v)] leaves both mappings as
    they were. *)
Theorem set_existing_pair_noop (k v : JsValue) (bm : t) :
  v ≠ JsUndefined →
  super bm !! k = Some v → reverseMap bm !! v = Some k →
  set k v bm = bm.
Proof.
  destruct bm as [fwd rev]. bm_cbn. intros Hvd Hk Hv.
  unfold set, JsMap.get, JsMap.set, JsMap.delete. bm_cbn.
  rewrite Hk. bm_cbn.
  rewrite (strict_not_equals_true v) by done. bm_cbn.
  rewrite lookup_delete_eq. bm_cbn. rewrite strict_not_equals_refl.
  by rewrite insert_delete_eq, !insert_id.
Qed.

Lemma set_existing_pair_noop_witness :
  let bm := run [OpSet (JsString "a") (JsNumber 1);
                 OpSet (JsString "b") (JsNumber 2)] empty in
  set (JsString "a") (JsNumber 1) bm = bm.
Proof.
  apply (set_existing_pair_noop (JsString "a") (JsNumber 1)
           (run [OpSet (JsString "a") (JsNumber 1);
                 OpSet (JsString "b") (JsNumber 2)] empty));
    by_evaluation.
Defined.

(** X15: how far one [set] moves [size].  In every container state and for
    every key and value, after [set(k, v)] the container is not empty, and
    [size] has grown by at most one and shrunk by at most one. *)
Theorem set_size_bounds (k v : JsValue) (bm : t) :
  1 ≤ size (set k v bm) ∧
  size (set k v bm) ≤ S (size bm) ∧
  size bm ≤ S (size (set k v bm)).
Proof.
  destruct (set_forward_shape k v bm) as (m & Hm & Hle).
  assert (size (set k v bm) = base.size (<[k:=v]> m)) as ->.
  { unfold size, JsMap.size. by rewrite Hm. }
  pose proof (map_size_insert_le m k v). lia.
Qed.

(** ** Sequences of calls and construction *)

(** X16: [size] never exceeds the number of insertions.  From an empty
    container, after any finite sequence of calls, [undefined] arguments
    included, [size] is at most the number of [set] calls made; a container
    constructed from a sequence of pairs has at most as many entries as
    there are pairs. *)
Theorem size_bounded_by_set_calls (ops : list Op)
  (pairs : list (JsValue * JsValue)) :
  size (run ops empty) ≤ count_sets ops ∧
  size (constructor (Some pairs)) ≤ length pairs.
Proof.
  split.
  - pose proof (run_size_le ops empty) as H.
    rewrite size_empty in H. lia.
  - unfold constructor. rewrite for_of_set_run.
    pose proof (run_size_le (map (λ kv, OpSet kv.1 kv.2) pairs) empty) as H.
    rewrite size_empty in H.
    assert (count_sets (map (λ kv, OpSet kv.1 kv.2) pairs) = length pairs)
      as Hc; [|lia].
    unfold count_sets. clear H.
    induction pairs as [|p pairs IH]; [done|].
    cbn [map List.filter is_set length]. by rewrite IH.
Qed.

(** X17: the constructor keeps the invariants.  A container constructed
    from a finite sequence of pairs whose keys and values are all defined
    has forward and reverse mappings that are inverses of each other (I1),
    with as many entries each as [size] reports (I3). *)
Theorem constructor_keeps_invariants (pairs : list (JsValue * JsValue)) :
  pairs_defined pairs = true →
  I1 (constructor (Some pairs)) ∧ I3 (constructor (Some pairs)) ∧
  inverse_maps (constructor (Some pairs)).
Proof.
  intros Hp. unfold constructor. rewrite for_of_set_run.
  pose proof (run_wf _ (pairs_defined_ops pairs Hp)) as Hwf.
  split_and!; [by apply wf_I1|by apply wf_I3|by destruct Hwf].
Qed.

Lemma constructor_keeps_invariants_witness :
  let pairs := [(JsString "one", JsNumber 1); (JsString "two", JsNumber 2);
                (JsString "uno", JsNumber 1); (JsString "two", JsNumber 1)] in
  I1 (constructor (Some pairs)) ∧ I3 (constructor (Some pairs)) ∧
  inverse_maps (constructor (Some pairs)).
Proof. apply constructor_keeps_invariants. reflexivity. Defined.

(** X18: the last pair wins.  For every finite sequence of pairs followed
    by a pair [(k, v)], [undefined] included, the constructed container
    answers [get(k) = v] and [getReverse(v) = k], with [has(k)] and
    [hasReverse(v)] true, whatever the earlier pairs were. *)
Theorem constructor_last_pair_wins
  (pairs : list (JsValue * JsValue)) (k v : JsValue) :
  let bm := constructor (Some (pairs ++ [(k, v)])) in
  get bm k = v ∧ getReverse bm v = k ∧
  has bm k = true ∧ hasReverse bm v = true.
Proof.
  intros bm. subst bm. unfold constructor. rewrite for_of_set_app.
  cbn [for_of_set].
  destruct (set_shape k v (for_of_set pairs empty)) as (A & B & ->).
  unfold get, getReverse, has, hasReverse, JsMap.get, JsMap.has. bm_cbn.
  rewrite !lookup_insert_eq. by repeat split.
Qed.

(** X19: values are unique (I2).  In a container built without storing
    [undefined], two distinct keys that are both present never map to the
    same value. *)
Theorem distinct_keys_distinct_values (ops : list Op) (k1 k2 : JsValue) :
  forallb op_defined ops = true →
  k1 ≠ k2 →
  has (run ops empty) k1 = true → has (run ops empty) k2 = true →
  get (run ops empty) k1 ≠ get (run ops empty) k2.
Proof.
  intros Hops Hne H1 H2. destruct (run_wf ops Hops) as [Hinv _].
  unfold has, get, JsMap.get in *.
  apply has_true_lookup in H1 as [v1 Hv1], H2 as [v2 Hv2].
  rewrite Hv1, Hv2. simpl. intros ->.
  apply Hinv in Hv1, Hv2. congruence.
Qed.

Lemma distinct_keys_distinct_values_witness :
  let ops := [OpSet (JsString "a") (JsNumber 1);
              OpSet (JsString "b") (JsNumber 1);
              OpSet (JsString "c") (JsNumber 2)] in
  get (run ops empty) (JsString "b") ≠ get (run ops empty) (JsString "c").
Proof.
  apply (distinct_keys_distinct_values
           [OpSet (JsString "a") (JsNumber 1);
            OpSet (JsString "b") (JsNumber 1);
            OpSet (JsString "c") (JsNumber 2)]
           (JsString "b") (JsString "c"));
    by_evaluation.
Defined.

(** X20: [delete] and [deleteReverse] mirror each other.  In a container
    built without storing [undefined], for every present key [k] with value
    [v = get(k)]: [getReverse(v)] is [k], [hasReverse(v)] is true, and
    [delete(k)] and [deleteReverse(v)] return the same boolean and leave the
    same container. *)
Theorem delete_mirrors_deleteReverse (ops : list Op) (k : JsValue) :
  forallb op_defined ops = true →
  has (run ops empty) k = true →
  let bm := run ops empty in
  getReverse bm (get bm k) = k ∧
  hasReverse bm (get bm k) = true ∧
  delete k bm = deleteReverse (get bm k) bm.
Proof.
  intros Hops Hk bm. destruct (run_wf ops Hops) as [Hinv Hdef].
  fold bm in Hk, Hinv, Hdef. clearbody bm. destruct bm as [fwd rev].
  unfold inverse_maps, defined_entries in *.
  unfold has, hasReverse, get, getReverse, delete, deleteReverse, JsMap.get,
    JsMap.delete in *. bm_cbn_all.
  apply has_true_lookup in Hk as [v Hv].
  destruct (Hdef _ _ Hv) as [Hkd Hvd].
  pose proof (proj1 (Hinv _ _) Hv) as Hr.
  rewrite Hv. simpl. rewrite Hr. simpl.
  rewrite (strict_equals_false k), (strict_equals_false v) by done.
  simpl. split_and!; [done| |].
  - apply has_true_lookup. rewrite Hr. eauto.
  - f_equal.
    assert (JsMap.has fwd k = true) as ->
      by (apply has_true_lookup; rewrite Hv; eauto).
    symmetry. apply has_true_lookup. rewrite Hr. eauto.
Qed.

Lemma delete_mirrors_deleteReverse_witness :
  let bm := run [OpSet (JsString "a") (JsNumber 1);
                 OpSet (JsString "b") (JsNumber 2)] empty in
  getReverse bm (get bm (JsString "b")) = JsString "b" ∧
  hasReverse bm (get bm (JsString "b")) = true ∧
  delete (JsString "b") bm = deleteReverse (get bm (JsString "b")) bm.
Proof.
  apply (delete_mirrors_deleteReverse
           [OpSet (JsString "a") (JsNumber 1);
            OpSet (JsString "b") (JsNumber 2)]
           (JsString "b"));
    by_evaluation.
Defined.

(** X21: reverse membership is forward content.  In a container built
    without storing [undefined], [hasReverse(v)] is true exactly when some
    present key maps to [v]. *)
Theorem hasReverse_iff_value_stored (ops : list Op) (v : JsValue) :
  forallb op_defined ops = true →
  hasReverse (run ops empty) v = true
  ↔ ∃ k, has (run ops empty) k = true ∧ get (run ops empty) k = v.
Proof.
  intros Hops. destruct (run_wf ops Hops) as [Hinv Hdef].
  unfold hasReverse, has, get, JsMap.get.
  rewrite has_true_lookup. split.
  - intros [k Hk]. exists k. apply Hinv in Hk.
    rewrite has_true_lookup, Hk. eauto.
  - intros (k & [w Hw]%has_true_lookup & Hg).
    rewrite Hw in Hg. simpl in Hg. subst w.
    apply Hinv in Hw. rewrite Hw. eauto.
Qed.

Lemma hasReverse_iff_value_stored_witness :
  let ops := [OpSet (JsString "a") (JsNumber 1);
              OpSet (JsString "b") (JsNumber 1)] in
  hasReverse (run ops empty) (JsNumber 1) = true
  ↔ ∃ k, has (run ops empty) k = true ∧ get (run ops empty) k = JsNumber 1.
Proof.
  apply (hasReverse_iff_value_stored
           [OpSet (JsString "a") (JsNumber 1);
            OpSet (JsString "b") (JsNumber 1)]
           (JsNumber 1)).
  reflexivity.
Defined.
